(** * client.py: a line-oriented TCP client (Python 2)

    The script resolves a port number from [sys.argv], creates a socket,
    prints the port and exits; the code after that exit (connect, the
    interactive loop and the final message) is embedded as written, so
    that its behaviour can be studied on its own.

    The embedding is shallow.  The module namespace is a finite map from
    names to values; statements are computations in a state-and-exception
    monad; the outside world (console, network peer) is a script of the
    outcomes of the successive blocking calls. *)

From Stdlib Require Import ZArith Ascii Lia.
From stdpp Require Import gmap strings list fin_maps pretty.

Open Scope Z_scope.

(** ** Values and exceptions *)

(** The exceptions the script can meet.  [SystemExit] is what [exit(n)]
    raises; [SocketError] stands for [socket.error], which carries
    [errno] and [strerror]. *)
Inductive exn : Type :=
| ValueError
| EOFError
| KeyboardInterrupt
| NameError (name : string)
| AttributeError (attr : string)
| SocketError (errno : Z) (strerror : string)
| SystemExit (code : Z).

Inductive pyval : Type :=
| VInt (z : Z)
| VStr (s : string)
| VModule (name : string)
| VSocket
| VExc (x : exn).

(** What the process does that can be seen from outside, in order. *)
Inductive event : Type :=
| EStdout (text : string)
| ESocket
| EConnect (host : string) (port : pyval)
| ERawInput (prompt : string)
| ESend (payload : string)
| ERecv (bufsize : Z).

(** ** The outside world *)

(** What one [raw_input] call meets: a line (without its newline), the
    end of the input, or an interrupt from the keyboard. *)
Inductive console_reply : Type :=
| Line (text : string)
| EndOfFile
| Interrupted.

(** A failed socket call: [errno] and [strerror] of the [socket.error]. *)
Record sock_failure : Type := SockFailure {
  failure_errno : Z;
  failure_strerror : string
}.

(** [stdin_script]: what each successive [raw_input] call meets; when
    the script is used up the console is at end of file.
    [connect_result]: [None] when the peer accepts.  [send_script]: per
    [send] call, [None] when the data is accepted.  [recv_script]: per
    [recv] call, the bytes that have arrived since the previous call, or
    the failure; when used up, nothing more arrives (the peer has
    closed). *)
Record world : Type := World {
  stdin_script : list console_reply;
  connect_result : option sock_failure;
  send_script : list (option sock_failure);
  recv_script : list (string + sock_failure)
}.

(** [globals] is the module namespace, [softspace] the flag of the print
    statement on standard output, [inbox] the bytes received by the
    socket and not yet read, [trace] the events so far, oldest first. *)
Record state : Type := State {
  globals : gmap string pyval;
  softspace : bool;
  inbox : string;
  env : world;
  trace : list event
}.

Definition initial_state (w : world) : state :=
  State ∅ false "" w [].

(** ** The monad of statements *)

Inductive result (A : Type) : Type :=
| Ok (a : A)
| Raise (x : exn)
| OutOfFuel.
Arguments Ok {A} a.
Arguments Raise {A} x.
Arguments OutOfFuel {A}.

Definition M (A : Type) : Type := state -> result A * state.

Definition ret {A} (a : A) : M A := fun st => (Ok a, st).

Definition bind {A B} (m : M A) (k : A -> M B) : M B :=
  fun st =>
    match m st with
    | (Ok a, st') => k a st'
    | (Raise x, st') => (Raise x, st')
    | (OutOfFuel, st') => (OutOfFuel, st')
    end.

Definition raise {A} (x : exn) : M A := fun st => (Raise x, st).

Declare Scope py_scope.
Delimit Scope py_scope with py.
Notation "x <- c1 ;; c2" := (bind c1 (fun x => c2))
  (at level 100, c1 at next level, right associativity) : py_scope.
Notation "c1 ;; c2" := (bind c1 (fun _ => c2))
  (at level 100, right associativity) : py_scope.
Open Scope py_scope.

(** [try: body / except: handler x]: every exception of [body] goes to
    the handler, with the state [body] left behind. *)
Definition try_except {A} (body : M A) (handler : exn -> M A) : M A :=
  fun st =>
    match body st with
    | (Raise x, st') => handler x st'
    | r => r
    end.

(** How a loop body ends: fall through to the next round, or [break]. *)
Inductive ctl : Type := Next | Break.

(** [while True: body], unrolled at most [fuel] times. *)
Fixpoint while_true (fuel : nat) (body : M ctl) : M unit :=
  match fuel with
  | O => fun st => (OutOfFuel, st)
  | S n => c <- body ;;
           match c with
           | Break => ret tt
           | Next => while_true n body
           end
  end.

(** ** Primitive statements *)

Definition emit (ev : event) : M unit :=
  fun st => (Ok tt, State (globals st) (softspace st) (inbox st) (env st)
                          (trace st ++ [ev])).

Definition assign (name : string) (v : pyval) : M unit :=
  fun st => (Ok tt, State (<[name := v]> (globals st)) (softspace st)
                          (inbox st) (env st) (trace st)).

Definition load_name (name : string) : M pyval :=
  fun st =>
    match globals st !! name with
    | Some v => (Ok v, st)
    | None => (Raise (NameError name), st)
    end.

Definition getattr (v : pyval) (attr : string) : M pyval :=
  match v with
  | VExc (SocketError n d) =>
      if String.eqb attr "errno" then ret (VInt n)
      else if String.eqb attr "strerror" then ret (VStr d)
      else raise (AttributeError attr)
  | _ => raise (AttributeError attr)
  end.

Definition socket_error (f : sock_failure) : exn :=
  SocketError (failure_errno f) (failure_strerror f).

(** [exit(n)] raises [SystemExit]. *)
Definition py_exit (code : Z) : M unit := raise (SystemExit code).

(** *** [int(str)] *)

(** Blank, tab, line feed, vertical tab, form feed, carriage return. *)
Definition is_space (c : ascii) : bool :=
  match c with
  | " " | "009" | "010" | "011" | "012" | "013" => true
  | _ => false
  end%char.

(** The place of a character in an alphabet, counted from 0. *)
Fixpoint index_in (c : ascii) (alphabet : string) : option Z :=
  match alphabet with
  | EmptyString => None
  | String d rest =>
      if Ascii.eqb c d then Some 0 else Z.succ <$> index_in c rest
  end.

Definition digit_of (c : ascii) : option Z := index_in c "0123456789".

Fixpoint lstrip (s : string) : string :=
  match s with
  | String c s' => if is_space c then lstrip s' else s
  | EmptyString => EmptyString
  end.

Fixpoint all_space (s : string) : bool :=
  match s with
  | String c s' => is_space c && all_space s'
  | EmptyString => true
  end.

(** Decimal digits, then nothing but white space. *)
Fixpoint digits (acc : Z) (s : string) : option Z :=
  match s with
  | String c s' =>
      match digit_of c with
      | Some d => digits (10 * acc + d) s'
      | None => if all_space s then Some acc else None
      end
  | EmptyString => Some acc
  end.

Definition unsigned (s : string) : option Z :=
  match s with
  | String c _ =>
      match digit_of c with
      | Some _ => digits 0 s
      | None => None
      end
  | EmptyString => None
  end.

(** [int(s)] on a string, base 10, as Python 2 reads it: optional white
    space, an optional sign, optional white space again (the conversion
    of the digits skips it once more, so that ["+ 80"] is 80 and
    ["- 0"] is 0), at least one digit, optional white space; anything
    else is a [ValueError].  Integers are unbounded (beyond a machine
    word Python goes on with a long).  The suffix [L] of a long literal
    is not accepted. *)
Definition int_of_string (s : string) : option Z :=
  match lstrip s with
  | String "+" s' => unsigned (lstrip s')
  | String "-" s' => Z.opp <$> unsigned (lstrip s')
  | s' => unsigned s'
  end.

Definition py_int (s : string) : M Z :=
  match int_of_string s with
  | Some v => ret v
  | None => raise ValueError
  end.

(** *** The print statement *)

Definition exn_str (x : exn) : string :=
  match x with
  | ValueError | EOFError | KeyboardInterrupt => ""
  | NameError name => "name '" +:+ name +:+ "' is not defined"
  | AttributeError attr => attr
  | SocketError n d => "[Errno " +:+ pretty n +:+ "] " +:+ d
  | SystemExit code => pretty code
  end.

(** [str(v)].  The text of a module or of a socket object depends on the
    interpreter; the script prints neither. *)
Definition py_str (v : pyval) : string :=
  match v with
  | VInt z => pretty z
  | VStr s => s
  | VModule name => "<module '" +:+ name +:+ "'>"
  | VSocket => "<socket._socketobject object>"
  | VExc x => exn_str x
  end.

Fixpoint last_char (s : string) : option ascii :=
  match s with
  | EmptyString => None
  | String c EmptyString => Some c
  | String _ s' => last_char s'
  end.

(** After an item the soft-space flag is set, unless the item is a
    string ending in white space other than a blank. *)
Definition softspace_after (v : pyval) : bool :=
  match v with
  | VStr s =>
      match last_char s with
      | Some c => Ascii.eqb c " " || negb (is_space c)
      | None => true
      end
  | _ => true
  end.

Definition set_softspace (b : bool) : M unit :=
  fun st => (Ok tt, State (globals st) b (inbox st) (env st) (trace st)).

Definition print_item (v : pyval) : M unit :=
  fun st =>
    ((if softspace st then emit (EStdout " ") else ret tt) ;;
     set_softspace false ;;
     emit (EStdout (py_str v)) ;;
     set_softspace (softspace_after v)) st.

Definition newline : string := String "010" EmptyString.

Definition print_newline : M unit :=
  emit (EStdout newline) ;; set_softspace false.

(** *** Console and socket *)

Definition set_env (w : world) : M unit :=
  fun st => (Ok tt, State (globals st) (softspace st) (inbox st) w (trace st)).

Definition set_inbox (buf : string) : M unit :=
  fun st => (Ok tt, State (globals st) (softspace st) buf (env st) (trace st)).

(** [raw_input(prompt)]: show the prompt, read one line. *)
Definition raw_input (prompt : string) : M string :=
  emit (ERawInput prompt) ;;
  set_softspace false ;;
  fun st =>
    let w := env st in
    match stdin_script w with
    | [] => (Raise EOFError, st)
    | r :: rest =>
        (set_env (World rest (connect_result w) (send_script w) (recv_script w)) ;;
         match r with
         | Line text => ret text
         | EndOfFile => raise EOFError
         | Interrupted => raise KeyboardInterrupt
         end) st
    end.

(** [socket.socket(socket.AF_INET, socket.SOCK_STREAM)]; creating the
    socket is taken to succeed. *)
Definition socket_socket : M pyval :=
  emit ESocket ;; ret VSocket.

(** [s.connect((host, port))] *)
Definition sock_connect (host : string) (port : pyval) : M unit :=
  emit (EConnect host port) ;;
  fun st =>
    match connect_result (env st) with
    | None => (Ok tt, st)
    | Some f => (Raise (socket_error f), st)
    end.

(** [s.send(payload)] *)
Definition sock_send (payload : string) : M unit :=
  emit (ESend payload) ;;
  fun st =>
    let w := env st in
    match send_script w with
    | [] => (Ok tt, st)
    | r :: rest =>
        (set_env (World (stdin_script w) (connect_result w) rest (recv_script w)) ;;
         match r with
         | None => ret tt
         | Some f => raise (socket_error f)
         end) st
    end.

Fixpoint str_take (n : nat) (s : string) : string :=
  match n, s with
  | S n', String c s' => String c (str_take n' s')
  | _, _ => EmptyString
  end.

Fixpoint str_drop (n : nat) (s : string) : string :=
  match n, s with
  | S n', String _ s' => str_drop n' s'
  | _, _ => s
  end.

(** The head of the buffered bytes, at most [bufsize] of them; the rest
    stays buffered. *)
Definition take_from_inbox (bufsize : Z) : M string :=
  fun st =>
    let buf := inbox st in
    (set_inbox (str_drop (Z.to_nat bufsize) buf) ;;
     ret (str_take (Z.to_nat bufsize) buf)) st.

(** [s.recv(bufsize)] *)
Definition sock_recv (bufsize : Z) : M string :=
  emit (ERecv bufsize) ;;
  fun st =>
    let w := env st in
    match recv_script w with
    | [] => take_from_inbox bufsize st
    | r :: rest =>
        (set_env (World (stdin_script w) (connect_result w) (send_script w) rest) ;;
         match r with
         | inl bytes =>
             (fun st' => set_inbox (inbox st' +:+ bytes) st') ;;
             take_from_inbox bufsize
         | inr f => raise (socket_error f)
         end) st
    end.

(** ** The script *)

(** Lines 4 to 11: [for arg in sys.argv: try: ... except ValueError: pass] *)
Fixpoint scan_args (argv : list string) : M unit :=
  match argv with
  | [] => ret tt
  | a :: rest =>
      assign "arg" (VStr a) ;;
      c <- try_except
             (v <- py_int a ;;
              assign "arg" (VInt v) ;;
              if (0 <=? v) && (v <=? 65535)
              then assign "portNumber" (VInt v) ;; ret Break
              else ret Next)
             (fun x => match x with
                       | ValueError => ret Next
                       | _ => raise x
                       end) ;;
      match c with
      | Break => ret tt
      | Next => scan_args rest
      end
  end.

(** Lines 26 to 28: the handler of the bare [except:].  The exception
    that was caught is not bound to any name. *)
Definition handler (caught : exn) : M ctl :=
  print_item (VStr "Client experienced error ") ;;
  e <- load_name "e" ;;
  code <- getattr e "errno" ;;
  print_item code ;;
  print_item (VStr ": ") ;;
  e <- load_name "e" ;;
  description <- getattr e "strerror" ;;
  print_item description ;;
  print_item (VStr ".") ;;
  print_newline ;;
  py_exit 0 ;;
  ret Next.

(** Lines 20 to 25: the body of the [try]. *)
Definition round : M ctl :=
  msg <- raw_input "> " ;;
  assign "msg" (VStr msg) ;;
  if Nat.eqb (String.length msg) 0
  then ret Break
  else
    sock_send (msg +:+ newline) ;;
    data <- sock_recv 1024 ;;
    print_item (VStr data) ;;
    print_newline ;;
    ret Next.

(** Lines 19 to 28: one pass through the body of the loop. *)
Definition loop_body : M ctl :=
  try_except round handler.

(** Lines 17 to 28 *)
Definition interactive_loop (fuel : nat) : M unit :=
  while_true fuel loop_body.

(** Line 30 *)
Definition farewell : M unit :=
  print_item (VStr "Client connection terminated") ;;
  print_newline.

(** Lines 3 to 11 *)
Definition resolve_port (argv : list string) : M unit :=
  assign "portNumber" (VInt 1050) ;;
  scan_args argv.

(** Lines 15 to 30: what follows the exit of line 14. *)
Definition session (fuel : nat) : M unit :=
  port <- load_name "portNumber" ;;
  sock_connect "127.0.0.1" port ;;
  interactive_loop fuel ;;
  farewell.

(** The whole script. *)
Definition client (fuel : nat) (argv : list string) : M unit :=
  assign "socket" (VModule "socket") ;;
  assign "sys" (VModule "sys") ;;
  resolve_port argv ;;
  s <- socket_socket ;;
  assign "s" s ;;
  port <- load_name "portNumber" ;;
  print_item port ;;
  print_newline ;;
  py_exit 0 ;;
  session fuel.

(** ** Running a script *)

(** How the process ends: the script ran to its end, [SystemExit]
    reached the top level, or another exception did (the interpreter then
    prints a traceback).  [Unfinished]: the fuel given was too small. *)
Inductive outcome : Type :=
| Finished
| Exited (code : Z)
| Traceback (x : exn)
| Unfinished.

Definition outcome_of (r : result unit) : outcome :=
  match r with
  | Ok _ => Finished
  | Raise (SystemExit code) => Exited code
  | Raise x => Traceback x
  | OutOfFuel => Unfinished
  end.

Definition exit_status (o : outcome) : option Z :=
  match o with
  | Finished => Some 0
  | Exited code => Some code
  | Traceback _ => Some 1
  | Unfinished => None
  end.

Definition run (prog : M unit) (w : world) : list event * outcome :=
  let (r, st) := prog (initial_state w) in (trace st, outcome_of r).

(** The value bound to [portNumber] when the scan is over. *)
Definition port_after (argv : list string) (w : world) : option pyval :=
  globals (snd (resolve_port argv (initial_state w))) !! "portNumber".

Definition quiet : world := World [] None [] [].

(** ** Vocabulary of the statements *)

(** The port an argument stands for, when it is the text of an integer
    between 0 and 65535. *)
Definition port_of_arg (a : string) : option Z :=
  match int_of_string a with
  | Some v => if (0 <=? v) && (v <=? 65535) then Some v else None
  | None => None
  end.

(** The first argument that stands for a port, 1050 when there is none. *)
Fixpoint first_valid_port (argv : list string) : Z :=
  match argv with
  | [] => 1050
  | a :: rest =>
      match port_of_arg a with
      | Some v => v
      | None => first_valid_port rest
      end
  end.

(** The data model's words: every argument is scanned and each valid one
    overwrites the port, so that the last one stays. *)
Definition last_valid_port (argv : list string) : Z :=
  fold_left (fun port a => match port_of_arg a with
                           | Some v => v
                           | None => port
                           end) argv 1050.

(** The events of the part of the script after line 14: connecting,
    prompting, sending and receiving. *)
Definition session_event (ev : event) : bool :=
  match ev with
  | EConnect _ _ | ERawInput _ | ESend _ | ERecv _ => true
  | EStdout _ | ESocket => false
  end.

(** The payloads handed to [send], oldest first. *)
Fixpoint payloads (tr : list event) : list string :=
  match tr with
  | [] => []
  | ESend payload :: tr' => payload :: payloads tr'
  | _ :: tr' => payloads tr'
  end.

(** The buffer sizes of the [recv] calls, oldest first. *)
Fixpoint recv_calls (tr : list event) : list Z :=
  match tr with
  | [] => []
  | ERecv bufsize :: tr' => bufsize :: recv_calls tr'
  | _ :: tr' => recv_calls tr'
  end.

(** Everything written to standard output. *)
Fixpoint stdout_text (tr : list event) : string :=
  match tr with
  | [] => ""
  | EStdout text :: tr' => text +:+ stdout_text tr'
  | _ :: tr' => stdout_text tr'
  end.

(** An exception that, should it reach the top level, does not end the
    process through [exit] with a code other than 0. *)
Definition benign (x : exn) : Prop :=
  match x with
  | SystemExit code => code = 0
  | _ => True
  end.

(** The failure the next [send] call meets, if any. *)
Definition send_failure (w : world) : option sock_failure :=
  match send_script w with
  | Some f :: _ => Some f
  | _ => None
  end.

(** What the next [recv] call meets: the bytes newly arrived (none once
    the peer has closed), or a failure. *)
Definition recv_arrival (w : world) : string + sock_failure :=
  match recv_script w with
  | r :: _ => r
  | [] => inl ""
  end.

(** The state in which line 14 leaves the process: the state from which
    the rest of the script would go on. *)
Definition state_at_exit (argv : list string) (w : world) : state :=
  snd (client 0 argv (initial_state w)).

(** A peer that resets the connection once a first line has been sent. *)
Definition reset_world : world :=
  World [Line "hello"] None []
        [inr (SockFailure 104 "Connection reset by peer")].

(** A peer to which nothing more can be sent. *)
Definition broken_pipe_world : world :=
  World [Line "hello"] None [Some (SockFailure 32 "Broken pipe")] [].

(** The connections attempted, oldest first. *)
Fixpoint connections (tr : list event) : list (string * pyval) :=
  match tr with
  | [] => []
  | EConnect host port :: tr' => (host, port) :: connections tr'
  | _ :: tr' => connections tr'
  end.

(** The texts printed right after a [recv] call, oldest first. *)
Fixpoint responses (tr : list event) : list string :=
  match tr with
  | [] => []
  | ERecv _ :: tr' =>
      match tr' with
      | EStdout data :: _ => data :: responses tr'
      | _ => responses tr'
      end
  | _ :: tr' => responses tr'
  end.

Definition str_concat (l : list string) : string :=
  foldr String.append "" l.

(** The state a pass through the loop leaves when [line], not empty, is
    read, the send is accepted and [bytes] arrive. *)
Definition after_pass (st : state) (line bytes : string) : state :=
  State (<["msg" := VStr line]> (globals st))
        false
        (str_drop 1024 (inbox st +:+ bytes))
        (World (tail (stdin_script (env st)))
               (connect_result (env st))
               (tail (send_script (env st)))
               (tail (recv_script (env st))))
        (trace st ++ [ERawInput "> ";
                      ESend (line +:+ newline);
                      ERecv 1024;
                      EStdout (str_take 1024 (inbox st +:+ bytes));
                      EStdout newline]).

Definition with_globals (g : gmap string pyval) (st : state) : state :=
  State g (softspace st) (inbox st) (env st) (trace st).

(** ** Resolving the port *)

Example int_of_string_samples :
  map int_of_string
      ["12"; " +12 "; "-0"; "007"; "65535"; "99999999999999999999";
       ""; " "; "+"; "1 2"; "0x10"; "12a"; "1_000"; "8080.0"]
  = [Some 12; Some 12; Some 0; Some 7; Some 65535; Some 99999999999999999999;
     None; None; None; None; None; None; None; None].
Proof. reflexivity. Qed.

(** White space between the sign and the digits is skipped; a sign with
    no digit after it, or two signs, is no literal. *)
Example int_of_string_sign_then_space :
  map int_of_string
      ["+ 80"; "- 0"; "- 1"; " -  12 "; "+"; "+ "; "- "; "+-1"; "+ +1"; "8 0"; "12L"]
  = [Some 80; Some 0; Some (-1); Some (-12); None; None; None; None; None;
     None; None].
Proof. reflexivity. Qed.

(** The scan takes such arguments as the integers they stand for. *)
Example signed_arguments_are_scanned :
  port_after ["client.py"; "+ 80"; "9090"] quiet = Some (VInt 80)
  /\ port_after ["client.py"; "- 0"] quiet = Some (VInt 0)
  /\ port_after ["client.py"; "- 1"; "9090"] quiet = Some (VInt 9090).
Proof. vm_compute. auto. Qed.

Lemma port_of_arg_Some (a : string) (v : Z) :
  port_of_arg a = Some v <-> int_of_string a = Some v /\ 0 <= v <= 65535.
Proof.
  unfold port_of_arg. destruct (int_of_string a) as [u|]; [|intuition discriminate].
  destruct ((0 <=? u) && (u <=? 65535)) eqn:E.
  - apply andb_true_iff in E as [E1 E2]. apply Z.leb_le in E1, E2.
    split; [intros [= <-]; auto with zarith | intros [[= <-] _]; reflexivity].
  - split; [discriminate|]. intros [[= <-] [H1 H2]].
    apply Z.leb_le in H1, H2. rewrite H1, H2 in E. discriminate.
Qed.

Lemma scan_args_valid (a : string) (rest : list string) (v : Z) (st : state) :
  port_of_arg a = Some v ->
  scan_args (a :: rest) st =
    (Ok tt, with_globals (<["portNumber" := VInt v]>
                            (<["arg" := VInt v]>
                               (<["arg" := VStr a]> (globals st)))) st).
Proof.
  unfold port_of_arg. intros H.
  cbn [scan_args]. unfold bind, try_except, py_int, assign at 1.
  destruct (int_of_string a) as [u|]; [|discriminate].
  cbn. destruct ((0 <=? u) && (u <=? 65535)); [|discriminate].
  injection H as <-. reflexivity.
Qed.

Lemma scan_args_invalid (a : string) (st : state) :
  port_of_arg a = None ->
  exists g,
    (forall rest, scan_args (a :: rest) st = scan_args rest (with_globals g st))
    /\ forall name, name <> "arg" -> g !! name = globals st !! name.
Proof.
  unfold port_of_arg. intros H.
  destruct (int_of_string a) as [u|] eqn:Eu.
  - destruct ((0 <=? u) && (u <=? 65535)) eqn:Er; [discriminate|].
    eexists. split.
    + intros rest. cbn [scan_args].
      unfold bind, try_except, py_int, assign at 1. rewrite Eu. cbn.
      rewrite Er. cbn. reflexivity.
    + intros name Hn. rewrite !lookup_insert_ne by congruence. reflexivity.
  - eexists. split.
    + intros rest. cbn [scan_args].
      unfold bind, try_except, py_int, assign at 1. rewrite Eu. cbn.
      reflexivity.
    + intros name Hn. rewrite lookup_insert_ne by congruence. reflexivity.
Qed.

Lemma scan_args_skips (pre : list string) (st : state) :
  Forall (fun b => port_of_arg b = None) pre ->
  exists g,
    (forall rest, scan_args (pre ++ rest) st = scan_args rest (with_globals g st))
    /\ forall name, name <> "arg" -> g !! name = globals st !! name.
Proof.
  intros Hpre. revert st.
  induction Hpre as [|b pre Hb _ IH]; intros st.
  - exists (globals st). destruct st; auto.
  - destruct (scan_args_invalid b st Hb) as (g1 & E1 & F1).
    destruct (IH (with_globals g1 st)) as (g2 & E2 & F2).
    exists g2. split.
    + intros rest. rewrite <- app_comm_cons, E1, E2. reflexivity.
    + intros name Hn. rewrite F2, <- F1 by assumption. reflexivity.
Qed.

(** The scan always comes to an end without an exception, and leaves in
    [portNumber] the first valid port, or what was there. *)
Lemma scan_args_total (argv : list string) (st : state) :
  globals st !! "portNumber" = Some (VInt 1050) ->
  exists g, scan_args argv st = (Ok tt, with_globals g st)
            /\ g !! "portNumber" = Some (VInt (first_valid_port argv))
            /\ forall name, name <> "arg" -> name <> "portNumber" ->
                            g !! name = globals st !! name.
Proof.
  revert st. induction argv as [|a rest IH]; intros st Hp.
  - exists (globals st). destruct st; auto.
  - cbn [first_valid_port]. destruct (port_of_arg a) as [v|] eqn:Ha.
    + rewrite (scan_args_valid a rest v st Ha). eexists. split; [reflexivity|].
      split; [apply lookup_insert_eq|].
      intros name H1 H2. rewrite !lookup_insert_ne by congruence. reflexivity.
    + destruct (scan_args_invalid a st Ha) as (g1 & E1 & F1).
      destruct (IH (with_globals g1 st)) as (g2 & E2 & P2 & F2).
      { cbn. rewrite F1 by discriminate. exact Hp. }
      exists g2. rewrite E1, E2. split; [reflexivity|]. split; [exact P2|].
      intros name H1 H2. rewrite F2, <- F1 by assumption. reflexivity.
Qed.

Lemma resolve_port_total (argv : list string) (st : state) :
  exists g, resolve_port argv st = (Ok tt, with_globals g st)
            /\ g !! "portNumber" = Some (VInt (first_valid_port argv))
            /\ forall name, name <> "arg" -> name <> "portNumber" ->
                            g !! name = globals st !! name.
Proof.
  unfold resolve_port, bind, assign at 1.
  edestruct scan_args_total as (g & E & P & F); [|rewrite E].
  - apply lookup_insert_eq.
  - exists g. split; [reflexivity|]. split; [exact P|].
    intros name H1 H2. rewrite F by assumption. cbn.
    apply lookup_insert_ne. congruence.
Qed.

(** C2: when some argument is the text of an integer between 0 and
    65535, [portNumber] ends up bound to the first such value; the loop
    variable [arg] holds that value when the scan stops, whatever follows
    it in the list plays no part, and the arguments before it, which are
    not numbers or are out of range, neither change the result nor raise
    an exception. *)
Theorem first_valid_argument_is_port
    (pre : list string) (a : string) (v : Z) (w : world) :
  Forall (fun b => port_of_arg b = None) pre ->
  port_of_arg a = Some v ->
  exists st,
    (forall post,
        resolve_port (pre ++ a :: post) (initial_state w) = (Ok tt, st))
    /\ globals st !! "portNumber" = Some (VInt v)
    /\ globals st !! "arg" = Some (VInt v).
Proof.
  intros Hpre Ha. unfold resolve_port, bind, assign at 1.
  edestruct (scan_args_skips pre) as (g & E & _); [exact Hpre|].
  eexists. split; [|split].
  - intros post. rewrite E, (scan_args_valid a post v _ Ha). reflexivity.
  - cbn. apply lookup_insert_eq.
  - cbn. rewrite lookup_insert_ne by discriminate. apply lookup_insert_eq.
Qed.

Lemma first_valid_argument_is_port_witness :
  Forall (fun b => port_of_arg b = None) ["client.py"; "-v"; "70000"; "-1"]
  /\ port_of_arg " 8080" = Some 8080
  /\ exists st,
       (forall post,
           resolve_port (["client.py"; "-v"; "70000"; "-1"] ++ " 8080" :: post)
                        (initial_state quiet) = (Ok tt, st))
       /\ globals st !! "portNumber" = Some (VInt 8080)
       /\ globals st !! "arg" = Some (VInt 8080).
Proof.
  assert (H1 : Forall (fun b => port_of_arg b = None)
                      ["client.py"; "-v"; "70000"; "-1"])
    by (repeat constructor).
  assert (H2 : port_of_arg " 8080" = Some 8080) by reflexivity.
  split; [exact H1|]. split; [exact H2|].
  exact (first_valid_argument_is_port _ _ _ quiet H1 H2).
Defined.

(** C4: when no argument is the text of an integer between 0 and 65535,
    and so for the empty list, the scan ends without an exception and
    [portNumber] is bound to 1050. *)
Theorem default_port_when_no_valid_argument (argv : list string) (w : world) :
  Forall (fun b => port_of_arg b = None) argv ->
  exists st,
    resolve_port argv (initial_state w) = (Ok tt, st)
    /\ globals st !! "portNumber" = Some (VInt 1050).
Proof.
  intros Hargv. unfold resolve_port, bind, assign at 1.
  edestruct (scan_args_skips argv) as (g & E & F); [exact Hargv|].
  specialize (E []). rewrite app_nil_r in E.
  eexists. split; [rewrite E; reflexivity|].
  cbn. rewrite F by discriminate. cbn. apply lookup_insert_eq.
Qed.

Lemma default_port_when_no_valid_argument_witness :
  Forall (fun b => port_of_arg b = None) ["client.py"; "port"; "65536"; "0x50"]
  /\ exists st,
       resolve_port ["client.py"; "port"; "65536"; "0x50"] (initial_state quiet)
       = (Ok tt, st)
       /\ globals st !! "portNumber" = Some (VInt 1050).
Proof.
  assert (H : Forall (fun b => port_of_arg b = None)
                     ["client.py"; "port"; "65536"; "0x50"])
    by (repeat constructor).
  split; [exact H|].
  exact (default_port_when_no_valid_argument _ quiet H).
Defined.

Lemma port_after_resolved (argv : list string) (w : world) :
  port_after argv w = Some (VInt (first_valid_port argv)).
Proof.
  unfold port_after.
  destruct (resolve_port_total argv (initial_state w)) as (g & E & P & _).
  rewrite E. exact P.
Qed.

(** C3, as amended: [portNumber] is set by the first valid argument met
    when the arguments are scanned in order, and stays 1050 when there
    is none; of two valid arguments the earlier one is selected. *)
Theorem port_is_first_valid_argument (argv : list string) (w : world) :
  port_after argv w = Some (VInt (first_valid_port argv)).
Proof. apply port_after_resolved. Qed.

(** C3, as stated, fails: with two valid arguments the port is the
    earlier one, not the later one. *)
Lemma last_valid_argument_not_selected :
  port_after ["client.py"; "80"; "8080"] quiet = Some (VInt 80)
  /\ last_valid_port ["client.py"; "80"; "8080"] = 8080
  /\ port_after ["client.py"; "80"; "8080"] quiet
     <> Some (VInt (last_valid_port ["client.py"; "80"; "8080"])).
Proof.
  split; [vm_compute; reflexivity|]. split; [vm_compute; reflexivity|].
  vm_compute. discriminate.
Qed.

(** ** The early exit *)

Lemma client_run (fuel : nat) (argv : list string) (w : world) :
  exists g,
    client fuel argv (initial_state w)
    = (Raise (SystemExit 0),
       State g false "" w
             [ESocket; EStdout (pretty (first_valid_port argv)); EStdout newline])
    /\ forall name, g !! name <> None ->
                    name ∈ ["socket"; "sys"; "portNumber"; "arg"; "s"].
Proof.
  unfold client. unfold bind at 1 2 3. unfold assign at 1 2.
  edestruct (resolve_port_total argv) as (g & E & P & F). rewrite E.
  unfold bind, socket_socket, emit, assign, load_name, ret. cbn.
  rewrite lookup_insert_ne by discriminate. rewrite P. cbn.
  eexists. split; [reflexivity|].
  intros name Hname.
  destruct (decide (name = "s")) as [->|Hs]; [set_solver|].
  rewrite lookup_insert_ne in Hname by congruence.
  destruct (decide (name = "arg")) as [->|Ha]; [set_solver|].
  destruct (decide (name = "portNumber")) as [->|Hp]; [set_solver|].
  rewrite F in Hname by assumption. cbn in Hname.
  destruct (decide (name = "sys")) as [->|Hy]; [set_solver|].
  rewrite lookup_insert_ne in Hname by congruence.
  destruct (decide (name = "socket")) as [->|Hk]; [set_solver|].
  rewrite lookup_insert_ne in Hname by congruence.
  rewrite lookup_empty in Hname. contradiction.
Qed.

(** C1: whatever the arguments and the world, the script creates the
    socket, prints the port bound to [portNumber] and leaves through the
    [exit(0)] of line 14: it never connects and never enters the loop. *)
Theorem early_exit_always (fuel : nat) (argv : list string) (w : world) :
  exists port,
    port_after argv w = Some (VInt port)
    /\ run (client fuel argv) w
       = ([ESocket; EStdout (pretty port); EStdout newline], Exited 0)
    /\ Forall (fun ev => session_event ev = false)
              (fst (run (client fuel argv) w)).
Proof.
  exists (first_valid_port argv).
  split; [apply port_after_resolved|].
  destruct (client_run fuel argv w) as (g & E & _).
  unfold run. rewrite E. cbn. split; [reflexivity|]. repeat constructor.
Qed.

(** ** The handler of the loop *)

Ltac unfold_py :=
  unfold bind, ret, raise, emit, assign, load_name, set_softspace, set_env,
    set_inbox, py_exit.

Ltac step_py := unfold_py; cbn.

Ltac split_softspace :=
  repeat match goal with
         | |- context [softspace_after ?v] => destruct (softspace_after v)
         end.

Lemma handler_unbound (caught : exn) (st : state) :
  globals st !! "e" = None ->
  handler caught st =
    (Raise (NameError "e"),
     State (globals st) true (inbox st) (env st)
           (trace st ++ (if softspace st then [EStdout " "] else [])
                     ++ [EStdout "Client experienced error "])).
Proof.
  intros He. unfold handler, print_item. step_py.
  destruct (softspace st); cbn; rewrite He, <- ?app_assoc; reflexivity.
Qed.

Lemma payloads_app (tr1 tr2 : list event) :
  payloads (tr1 ++ tr2) = payloads tr1 ++ payloads tr2.
Proof.
  induction tr1 as [|[] tr1 IH]; cbn; rewrite ?IH; reflexivity.
Qed.

Lemma recv_calls_app (tr1 tr2 : list event) :
  recv_calls (tr1 ++ tr2) = recv_calls tr1 ++ recv_calls tr2.
Proof.
  induction tr1 as [|[] tr1 IH]; cbn; rewrite ?IH; reflexivity.
Qed.

(** Whatever the namespace, the handler only writes to standard output,
    and leaves through an exception; when that exception is [SystemExit]
    its code is 0. *)
Lemma handler_spec (caught : exn) (st : state) :
  exists x st' tail,
    handler caught st = (Raise x, st')
    /\ benign x
    /\ (globals st !! "e" = None -> x = NameError "e")
    /\ trace st' = trace st ++ tail
    /\ payloads tail = [] /\ recv_calls tail = []
    /\ globals st' = globals st.
Proof.
  destruct (globals st !! "e") as [v|] eqn:He.
  - unfold handler, print_item. unfold_py. cbn -[softspace_after].
    destruct (softspace st); cbn -[softspace_after]; rewrite He;
      destruct v as [z|s|n| |x]; try destruct x; cbn -[softspace_after];
      split_softspace; cbn -[softspace_after]; rewrite ?He;
      cbn -[softspace_after]; split_softspace; cbn;
      do 3 eexists; rewrite <- ?app_assoc;
      (split; [reflexivity|]); cbn;
      (split; [exact I || reflexivity|]);
      (split; [discriminate|]);
      (split; [reflexivity|]); cbn; auto.
  - rewrite (handler_unbound caught st He). do 3 eexists.
    split; [reflexivity|]. split; [exact I|]. split; [reflexivity|].
    split; [reflexivity|]. destruct (softspace st); cbn; auto.
Qed.

(** ** One pass through the loop *)

Lemma str_append_nil_r (s : string) : s +:+ "" = s.
Proof.
  induction s as [|c s IH]; [reflexivity|].
  change (String c (s +:+ "") = String c s). rewrite IH. reflexivity.
Qed.

Lemma str_take_drop (n : nat) (s : string) :
  str_take n s +:+ str_drop n s = s.
Proof.
  revert s. induction n as [|n IH]; intros [|c s]; try reflexivity.
  change (String c (str_take n s +:+ str_drop n s) = String c s).
  rewrite IH. reflexivity.
Qed.

Lemma str_take_length (n : nat) (s : string) :
  String.length (str_take n s) = Nat.min n (String.length s).
Proof.
  revert s. induction n as [|n IH]; intros [|c s]; cbn; rewrite ?IH; reflexivity.
Qed.

Lemma str_drop_length (n : nat) (s : string) :
  String.length (str_drop n s) = (String.length s - n)%nat.
Proof.
  revert s. induction n as [|n IH]; intros [|c s]; cbn; rewrite ?IH; reflexivity.
Qed.

Ltac unfold_io :=
  unfold raw_input, sock_send, sock_recv, take_from_inbox, print_item,
    print_newline; unfold_py.

(** An empty line: the body of the [try] breaks out of the loop, having
    only shown the prompt. *)
Lemma round_break (st : state) (line : string) :
  head (stdin_script (env st)) = Some (Line line) ->
  String.length line = 0%nat ->
  exists st',
    round st = (Ok Break, st')
    /\ trace st' = trace st ++ [ERawInput "> "]
    /\ softspace st' = false.
Proof.
  intros Hin Hlen. unfold round. unfold_io. cbn.
  destruct (stdin_script (env st)) as [|r rest]; [discriminate|].
  injection Hin as ->. cbn. rewrite Hlen. cbn. eauto.
Qed.

Lemma round_cases (st : state) :
  exists r st' tail,
    round st = (r, st')
    /\ trace st' = trace st ++ ERawInput "> " :: tail
    /\ softspace st' = false
    /\ (forall name, name <> "msg" -> globals st' !! name = globals st !! name)
    /\ match r with
       | Ok Next =>
           (length (stdin_script (env st')) < length (stdin_script (env st)))%nat
       | Ok Break => True
       | Raise x => forall code, x <> SystemExit code
       | OutOfFuel => False
       end
    /\ payloads tail =
       match head (stdin_script (env st)) with
       | Some (Line line) =>
           if Nat.eqb (String.length line) 0 then [] else [line +:+ newline]
       | _ => []
       end.
Proof.
  unfold round. unfold_io. cbn -[softspace_after str_take str_drop Z.to_nat].
  destruct (stdin_script (env st)) as [|[line| |] rest];
    cbn -[softspace_after str_take str_drop Z.to_nat].
  all: try (do 3 eexists; split; [reflexivity|]; cbn;
            repeat split; auto; discriminate).
  destruct (Nat.eqb (String.length line) 0);
    cbn -[softspace_after str_take str_drop Z.to_nat].
  { do 3 eexists; split; [reflexivity|]; cbn. repeat split; auto.
    intros name Hn. apply lookup_insert_ne. congruence. }
  destruct (send_script (env st)) as [|[f|] srest];
    cbn -[softspace_after str_take str_drop Z.to_nat].
  all: destruct (recv_script (env st)) as [|[bytes|f'] rrest];
    cbn -[softspace_after str_take str_drop Z.to_nat].
  all: do 3 eexists; (split; [reflexivity|]);
    cbn -[softspace_after str_take str_drop Z.to_nat];
    rewrite <- ?app_assoc;
    cbn -[softspace_after str_take str_drop Z.to_nat];
    (split; [reflexivity|]); (split; [reflexivity|]);
    (split; [intros name Hn; apply lookup_insert_ne; congruence|]);
    (split; [try discriminate; lia|]); reflexivity.
Qed.

Lemma loop_body_cases (st : state) :
  exists r st' tail,
    loop_body st = (r, st')
    /\ trace st' = trace st ++ ERawInput "> " :: tail
    /\ (forall name, name <> "msg" -> globals st' !! name = globals st !! name)
    /\ match r with
       | Ok Next =>
           (length (stdin_script (env st')) < length (stdin_script (env st)))%nat
       | Ok Break => True
       | Raise x => benign x /\ (globals st !! "e" = None -> x = NameError "e")
       | OutOfFuel => False
       end
    /\ payloads tail =
       match head (stdin_script (env st)) with
       | Some (Line line) =>
           if Nat.eqb (String.length line) 0 then [] else [line +:+ newline]
       | _ => []
       end.
Proof.
  destruct (round_cases st) as (r & st1 & tail & E & T & _ & G & R & P).
  unfold loop_body, try_except. rewrite E.
  destruct r as [c|x|]; [| |contradiction].
  - exists (Ok c), st1, tail. auto.
  - destruct (handler_spec x st1) as (y & st2 & tail2 & E2 & B & N & T2 & P2 & _ & G2).
    exists (Raise y), st2, (tail ++ tail2). split; [exact E2|].
    split; [rewrite T2, T, <- app_assoc; reflexivity|].
    split; [intros name Hn; rewrite G2; auto|].
    split.
    + split; [exact B|]. intros He. apply N. rewrite G by discriminate. exact He.
    + rewrite payloads_app, P2, app_nil_r. exact P.
Qed.

Lemma interactive_loop_step (fuel : nat) (st : state) :
  interactive_loop (S fuel) st =
    match loop_body st with
    | (Ok Next, st') => interactive_loop fuel st'
    | (Ok Break, st') => (Ok tt, st')
    | (Raise x, st') => (Raise x, st')
    | (OutOfFuel, st') => (OutOfFuel, st')
    end.
Proof.
  unfold interactive_loop. cbn [while_true]. unfold bind.
  destruct (loop_body st) as [[[|]|x|] st']; reflexivity.
Qed.

(** The loop can only be left by [break] or by an exception of the
    handler; no name other than [msg] is bound on the way. *)
Lemma interactive_loop_inv (fuel : nat) (st : state) :
  (forall name, name <> "msg" ->
     globals (snd (interactive_loop fuel st)) !! name = globals st !! name)
  /\ match fst (interactive_loop fuel st) with
     | Raise x => benign x /\ (globals st !! "e" = None -> x = NameError "e")
     | _ => True
     end.
Proof.
  revert st. induction fuel as [|fuel IH]; intros st.
  - cbn. auto.
  - rewrite interactive_loop_step.
    destruct (loop_body_cases st) as (r & st1 & tail & E & _ & G & R & _).
    rewrite E. destruct r as [[|]|x|]; cbn; auto.
    destruct (IH st1) as [G1 R1]. split.
    + intros name Hn. rewrite G1, G by assumption. reflexivity.
    + destruct (fst (interactive_loop fuel st1)); auto.
      destruct R1 as [B N]. split; [exact B|].
      intros He. apply N. rewrite G by discriminate. exact He.
Qed.


(** ** The interactive loop *)

(** C6: when the line read has length zero, the loop is left by [break]
    with nothing sent, the message of line 30 is printed and the script
    runs to its end. *)
Theorem empty_line_ends_normally (fuel : nat) (st : state) (line : string) :
  head (stdin_script (env st)) = Some (Line line) ->
  String.length line = 0%nat ->
  exists st',
    (interactive_loop (S fuel) ;; farewell) st = (Ok tt, st')
    /\ trace st' = trace st ++ [ERawInput "> ";
                                EStdout "Client connection terminated";
                                EStdout newline]
    /\ payloads (trace st') = payloads (trace st)
    /\ outcome_of (fst ((interactive_loop (S fuel) ;; farewell) st)) = Finished.
Proof.
  intros Hin Hlen.
  destruct (round_break st line Hin Hlen) as (st1 & E & T & S1).
  assert (exists st',
    (interactive_loop (S fuel) ;; farewell) st = (Ok tt, st')
    /\ trace st' = trace st ++ [ERawInput "> ";
                                EStdout "Client connection terminated";
                                EStdout newline]) as (st' & E' & T').
  { unfold bind. rewrite interactive_loop_step.
    unfold loop_body, try_except. rewrite E.
    unfold farewell, print_item, print_newline. unfold_py. rewrite S1. cbn.
    eexists. split; [reflexivity|]. cbn. rewrite T, <- !app_assoc.
    reflexivity. }
  exists st'. rewrite E'. split; [reflexivity|]. split; [exact T'|].
  split; [|reflexivity].
  rewrite T', payloads_app. cbn. apply app_nil_r.
Qed.

Lemma empty_line_ends_normally_witness :
  let st := State ∅ false "" (World [Line ""; Line "never read"] None [] []) [] in
  head (stdin_script (env st)) = Some (Line "")
  /\ String.length "" = 0%nat
  /\ exists st',
       (interactive_loop 1 ;; farewell) st = (Ok tt, st')
       /\ trace st' = trace st ++ [ERawInput "> ";
                                   EStdout "Client connection terminated";
                                   EStdout newline]
       /\ payloads (trace st') = payloads (trace st)
       /\ outcome_of (fst ((interactive_loop 1 ;; farewell) st)) = Finished.
Proof.
  intros st. split; [reflexivity|]. split; [reflexivity|].
  exact (empty_line_ends_normally 0 st "" eq_refl eq_refl).
Defined.

(** C7: when the line read is not empty, the pass through the loop hands
    to [send] exactly one payload, the line followed by one newline,
    whatever happens next. *)
Theorem sends_line_and_newline (st : state) (line : string) :
  head (stdin_script (env st)) = Some (Line line) ->
  String.length line <> 0%nat ->
  payloads (trace (snd (loop_body st)))
  = payloads (trace st) ++ [line +:+ newline].
Proof.
  intros Hin Hlen.
  destruct (loop_body_cases st) as (r & st1 & tail & E & T & _ & _ & P).
  rewrite E. cbn. rewrite T, payloads_app. cbn. rewrite P, Hin.
  apply Nat.eqb_neq in Hlen. rewrite Hlen. reflexivity.
Qed.

Lemma sends_line_and_newline_witness :
  let st := State ∅ false "" reset_world [] in
  head (stdin_script (env st)) = Some (Line "hello")
  /\ String.length "hello" <> 0%nat
  /\ payloads (trace (snd (loop_body st)))
     = payloads (trace st) ++ ["hello" +:+ newline].
Proof.
  intros st. split; [reflexivity|]. split; [discriminate|].
  apply (sends_line_and_newline st "hello"); [reflexivity|discriminate].
Defined.

(** C8: a pass through the loop in which the line is not empty and the
    send is accepted calls [recv] once, with a buffer of 1024 bytes, and
    prints what it returns: the first bytes of what the socket holds, at
    most 1024 of them.  When the socket holds more than 1024 bytes, 1024
    are printed and the others are left in the socket. *)
Theorem recv_reads_one_chunk (st : state) (line bytes : string) :
  head (stdin_script (env st)) = Some (Line line) ->
  String.length line <> 0%nat ->
  send_failure (env st) = None ->
  recv_arrival (env st) = inl bytes ->
  exists st',
    loop_body st = (Ok Next, st')
    /\ trace st' = trace st ++ [ERawInput "> ";
                                ESend (line +:+ newline);
                                ERecv 1024;
                                EStdout (str_take 1024 (inbox st +:+ bytes));
                                EStdout newline]
    /\ recv_calls (trace st') = recv_calls (trace st) ++ [1024]
    /\ inbox st' = str_drop 1024 (inbox st +:+ bytes)
    /\ (String.length (str_take 1024 (inbox st +:+ bytes)) <= 1024)%nat
    /\ ((1024 < String.length (inbox st +:+ bytes))%nat ->
        String.length (str_take 1024 (inbox st +:+ bytes)) = 1024%nat
        /\ inbox st' <> "").
Proof.
  intros Hin Hlen Hsend Hrecv.
  assert (exists st',
    loop_body st = (Ok Next, st')
    /\ trace st' = trace st ++ [ERawInput "> ";
                                ESend (line +:+ newline);
                                ERecv 1024;
                                EStdout (str_take 1024 (inbox st +:+ bytes));
                                EStdout newline]
    /\ inbox st' = str_drop 1024 (inbox st +:+ bytes)) as (st' & E & T & I).
  { unfold loop_body, try_except, round. unfold_io.
    change (Z.to_nat 1024) with 1024%nat.
    unfold send_failure in Hsend. unfold recv_arrival in Hrecv.
    cbn -[softspace_after str_take str_drop].
    destruct (stdin_script (env st)) as [|r rest]; [discriminate|].
    injection Hin as ->. cbn -[softspace_after str_take str_drop].
    apply Nat.eqb_neq in Hlen. rewrite Hlen.
    cbn -[softspace_after str_take str_drop].
    destruct (send_script (env st)) as [|[f|] srest]; [|discriminate|];
      cbn -[softspace_after str_take str_drop];
      destruct (recv_script (env st)) as [|r rrest];
      cbn -[softspace_after str_take str_drop];
      try (injection Hrecv as <-); try subst r;
      cbn -[softspace_after str_take str_drop];
      eexists; (split; [reflexivity|]);
      cbn -[softspace_after str_take str_drop];
      rewrite <- ?app_assoc; rewrite ?str_append_nil_r; auto. }
  exists st'. split; [exact E|]. split; [exact T|].
  split; [rewrite T, recv_calls_app; cbn; reflexivity|].
  split; [exact I|].
  split; [rewrite str_take_length; lia|].
  intros Hlong. split; [rewrite str_take_length; lia|].
  rewrite I. intros Hnil.
  pose proof (str_drop_length 1024 (inbox st +:+ bytes)) as Hd.
  rewrite Hnil in Hd. cbn in Hd. lia.
Qed.

Lemma recv_reads_one_chunk_witness :
  let st := State ∅ false "left over "
                  (World [Line "hello"] None [None] [inl "from the peer"]) [] in
  head (stdin_script (env st)) = Some (Line "hello")
  /\ String.length "hello" <> 0%nat
  /\ send_failure (env st) = None
  /\ recv_arrival (env st) = inl "from the peer"
  /\ exists st',
       loop_body st = (Ok Next, st')
       /\ trace st' = trace st ++ [ERawInput "> ";
                                   ESend ("hello" +:+ newline);
                                   ERecv 1024;
                                   EStdout (str_take 1024
                                              (inbox st +:+ "from the peer"));
                                   EStdout newline]
       /\ recv_calls (trace st') = recv_calls (trace st) ++ [1024]
       /\ inbox st' = str_drop 1024 (inbox st +:+ "from the peer")
       /\ (String.length (str_take 1024 (inbox st +:+ "from the peer"))
           <= 1024)%nat
       /\ ((1024 < String.length (inbox st +:+ "from the peer"))%nat ->
           String.length (str_take 1024 (inbox st +:+ "from the peer"))
           = 1024%nat
           /\ inbox st' <> "").
Proof.
  intros st. split; [reflexivity|]. split; [discriminate|].
  split; [reflexivity|]. split; [reflexivity|].
  apply (recv_reads_one_chunk st "hello" "from the peer");
    [reflexivity|discriminate|reflexivity|reflexivity].
Defined.

(** ** The error path *)

(** C5 fails on the code: when the peer resets the connection, the
    handler writes the first item of its message and then stops on the
    unbound name [e]; neither code nor description is printed and the
    process ends in a traceback instead of [exit(0)]. *)
Theorem reset_by_peer_not_reported :
  let st := state_at_exit ["client.py"] reset_world in
  trace st = [ESocket; EStdout "1050"; EStdout newline]
  /\ outcome_of (fst (session 2 st)) = Traceback (NameError "e")
  /\ exit_status (outcome_of (fst (session 2 st))) = Some 1
  /\ trace (snd (session 2 st))
     = trace st ++ [EConnect "127.0.0.1" (VInt 1050);
                    ERawInput "> ";
                    ESend ("hello" +:+ newline);
                    ERecv 1024;
                    EStdout "Client experienced error "]
  /\ stdout_text (trace (snd (session 2 st)))
     = "1050" +:+ newline +:+ "Client experienced error ".
Proof. vm_compute. auto 6. Qed.

(** C9: a run that ends through [exit] ends with code 0, be it the whole
    script (line 14) or what follows line 14 (line 28), started in any
    state and so with any namespace. *)
Theorem explicit_exit_code_is_zero
    (fuel : nat) (argv : list string) (w : world) (st : state) (code : Z) :
  fst (client fuel argv (initial_state w)) = Raise (SystemExit code)
  \/ fst (session fuel st) = Raise (SystemExit code) ->
  code = 0.
Proof.
  intros [H|H].
  - destruct (client_run fuel argv w) as (g & E & _). rewrite E in H.
    cbn in H. congruence.
  - revert H. unfold session, load_name, sock_connect, emit. unfold bind at 1.
    destruct (globals st !! "portNumber") as [port|]; [|discriminate].
    unfold bind at 1 2. cbn.
    destruct (connect_result (env st)) as [f|]; [discriminate|].
    unfold bind.
    pose proof (interactive_loop_inv fuel
      (State (globals st) (softspace st) (inbox st) (env st)
             (trace st ++ [EConnect "127.0.0.1" port]))) as [_ R].
    destruct (interactive_loop fuel _) as [[u|x|] st1]; cbn in R.
    + unfold farewell, print_item, print_newline. unfold_py.
      destruct (softspace st1); discriminate.
    + intros [= ->]. apply R.
    + discriminate.
Qed.

Lemma explicit_exit_code_is_zero_witness :
  let st := State {["portNumber" := VInt 1050;
                    "e" := VExc (SocketError 32 "Broken pipe")]}
                  false "" broken_pipe_world [] in
  (fst (client 1 ["client.py"] (initial_state quiet)) = Raise (SystemExit 0)
   \/ fst (session 1 st) = Raise (SystemExit 0))
  /\ 0 = 0.
Proof.
  intros st.
  assert (H : fst (client 1 ["client.py"] (initial_state quiet))
              = Raise (SystemExit 0)
              \/ fst (session 1 st) = Raise (SystemExit 0))
    by (right; vm_compute; reflexivity).
  split; [exact H|].
  exact (explicit_exit_code_is_zero 1 ["client.py"] quiet st 0 H).
Defined.

(** The script binds no name other than [socket], [sys], [portNumber],
    [arg] and [s]; in particular [e] is unbound when line 14 is reached. *)
Lemma e_unbound_at_exit (argv : list string) (w : world) :
  globals (state_at_exit argv w) !! "e" = None.
Proof.
  unfold state_at_exit.
  destruct (client_run 0 argv w) as (g & E & F). rewrite E. cbn.
  destruct (g !! "e") as [v|] eqn:He; [|reflexivity].
  assert (H : "e" ∈ ["socket"; "sys"; "portNumber"; "arg"; "s"])
    by (apply F; rewrite He; discriminate).
  apply list_elem_of_In in H. cbn in H. intuition discriminate.
Qed.

(** C10: [e] is unbound in the namespace of the script, and the loop
    binds nothing but [msg].  With [e] unbound the handler, whatever the
    exception caught, writes the first item of its message and raises
    [NameError] on [e]; the loop then never ends through [exit]. *)
Theorem handler_raises_name_error
    (caught : exn) (fuel : nat) (argv : list string) (w : world) (st : state) :
  globals (state_at_exit argv w) !! "e" = None
  /\ (globals st !! "e" = None ->
      handler caught st =
        (Raise (NameError "e"),
         State (globals st) true (inbox st) (env st)
               (trace st ++ (if softspace st then [EStdout " "] else [])
                         ++ [EStdout "Client experienced error "]))
      /\ globals (snd (interactive_loop fuel st)) !! "e" = None
      /\ forall code, fst (interactive_loop fuel st) <> Raise (SystemExit code)).
Proof.
  split; [apply e_unbound_at_exit|].
  intros He. split; [apply handler_unbound; exact He|].
  destruct (interactive_loop_inv fuel st) as [G R]. split.
  - rewrite G by discriminate. exact He.
  - intros code Hx. rewrite Hx in R. destruct R as [_ N].
    specialize (N He). discriminate.
Qed.

Lemma handler_raises_name_error_witness :
  let st := state_at_exit ["client.py"; "8080"] reset_world in
  globals st !! "e" = None
  /\ handler EOFError st =
       (Raise (NameError "e"),
        State (globals st) true (inbox st) (env st)
              (trace st ++ (if softspace st then [EStdout " "] else [])
                        ++ [EStdout "Client experienced error "]))
  /\ globals (snd (interactive_loop 3 st)) !! "e" = None
  /\ forall code, fst (interactive_loop 3 st) <> Raise (SystemExit code).
Proof.
  intros st.
  assert (He : globals st !! "e" = None) by (vm_compute; reflexivity).
  split; [exact He|].
  exact (proj2 (handler_raises_name_error
                  EOFError 3 ["client.py"; "8080"] reset_world st) He).
Defined.

(** ** A session with an echoing peer *)

(** What follows line 14, had the script gone on: one line is sent, the
    echo is printed, and an empty line ends the session. *)
Example echo_session :
  let w := World [Line "hello"; Line ""] None [] [inl ("hello" +:+ newline)] in
  let st := state_at_exit ["client.py"; "7"] w in
  outcome_of (fst (session 3 st)) = Finished
  /\ trace (snd (session 3 st))
     = trace st ++ [EConnect "127.0.0.1" (VInt 7);
                    ERawInput "> ";
                    ESend ("hello" +:+ newline);
                    ERecv 1024;
                    EStdout ("hello" +:+ newline);
                    EStdout newline;
                    ERawInput "> ";
                    EStdout "Client connection terminated";
                    EStdout newline].
Proof. vm_compute. auto. Qed.

(** ** More on the passes through the loop *)

Arguments str_take : simpl never.
Arguments str_drop : simpl never.

Lemma loop_body_next (st : state) (line bytes : string) :
  head (stdin_script (env st)) = Some (Line line) ->
  String.length line <> 0%nat ->
  send_failure (env st) = None ->
  recv_arrival (env st) = inl bytes ->
  loop_body st = (Ok Next, after_pass st line bytes).
Proof.
  intros Hin Hlen Hsend Hrecv.
  unfold loop_body, try_except, round, after_pass. unfold_io.
  change (Z.to_nat 1024) with 1024%nat.
  unfold send_failure in Hsend. unfold recv_arrival in Hrecv.
  cbn -[softspace_after str_take str_drop].
  destruct (stdin_script (env st)) as [|r rest]; [discriminate|].
  injection Hin as ->. cbn -[softspace_after str_take str_drop].
  apply Nat.eqb_neq in Hlen. rewrite Hlen.
  cbn -[softspace_after str_take str_drop].
  destruct (send_script (env st)) as [|[f|] srest]; [|discriminate|];
    cbn -[softspace_after str_take str_drop];
    destruct (recv_script (env st)) as [|r rrest];
    cbn -[softspace_after str_take str_drop];
    try (injection Hrecv as <-); try subst r;
    cbn -[softspace_after str_take str_drop];
    rewrite <- ?app_assoc; rewrite ?str_append_nil_r; reflexivity.
Qed.

Lemma loop_body_break (st : state) (line : string) :
  head (stdin_script (env st)) = Some (Line line) ->
  String.length line = 0%nat ->
  loop_body st =
    (Ok Break,
     State (<["msg" := VStr line]> (globals st)) false (inbox st)
           (World (tail (stdin_script (env st))) (connect_result (env st))
                  (send_script (env st)) (recv_script (env st)))
           (trace st ++ [ERawInput "> "])).
Proof.
  intros Hin Hlen. unfold loop_body, try_except, round. unfold_io. cbn.
  destruct (stdin_script (env st)) as [|r rest]; [discriminate|].
  injection Hin as ->. cbn. rewrite Hlen. reflexivity.
Qed.

Lemma str_append_assoc (a b c : string) : (a +:+ b) +:+ c = a +:+ (b +:+ c).
Proof.
  induction a as [|x a IH]; [reflexivity|].
  change (String x ((a +:+ b) +:+ c) = String x (a +:+ (b +:+ c))).
  rewrite IH. reflexivity.
Qed.

Lemma connections_app (tr1 tr2 : list event) :
  connections (tr1 ++ tr2) = connections tr1 ++ connections tr2.
Proof.
  induction tr1 as [|[] tr1 IH]; cbn; rewrite ?IH; reflexivity.
Qed.

Lemma responses_app_prompt (tr1 tr2 : list event) (prompt : string) :
  responses (tr1 ++ ERawInput prompt :: tr2)
  = responses tr1 ++ responses (ERawInput prompt :: tr2).
Proof.
  induction tr1 as [|ev tr1 IH]; [reflexivity|].
  destruct ev; cbn [app responses]; try exact IH.
  destruct tr1 as [|ev' tr1]; [reflexivity|].
  rewrite IH. destruct ev'; reflexivity.
Qed.

(** A console that gives the non-empty [lines] and then an empty one, a
    peer that accepts every send and answers every [recv]: the loop
    makes one pass per line, then breaks. *)
Lemma loop_transcript (lines : list string) :
  forall (fuel : nat) (st : state) (rest : list console_reply)
         (arrivals : list string),
    stdin_script (env st) = (Line <$> lines) ++ Line "" :: rest ->
    Forall (fun l => String.length l <> 0%nat) lines ->
    Forall (fun r => r = None) (send_script (env st)) ->
    recv_script (env st) = inl <$> arrivals ->
    (length lines < fuel)%nat ->
    exists st' chunks mid,
      interactive_loop fuel st = (Ok tt, st')
      /\ stdin_script (env st') = rest
      /\ softspace st' = false
      /\ trace st' = trace st ++ mid ++ [ERawInput "> "]
      /\ connections mid = []
      /\ payloads mid = (fun l => l +:+ newline) <$> lines
      /\ recv_calls mid = replicate (length lines) 1024
      /\ responses (trace st') = responses (trace st) ++ chunks
      /\ length chunks = length lines
      /\ Forall (fun d => (String.length d <= 1024)%nat) chunks
      /\ str_concat chunks +:+ inbox st'
         = inbox st +:+ str_concat (take (length lines) arrivals).
Proof.
  induction lines as [|l ls IH]; intros fuel st rest arrivals Hin Hne Hs Hr Hf.
  - destruct fuel as [|fuel]; [cbn in Hf; lia|].
    rewrite interactive_loop_step.
    rewrite (loop_body_break st ""); [|rewrite Hin; reflexivity|reflexivity].
    eexists _, [], []. split; [reflexivity|].
    split; [cbn; rewrite Hin; reflexivity|].
    split; [reflexivity|]. split; [reflexivity|]. split; [reflexivity|].
    split; [reflexivity|]. split; [reflexivity|].
    split; [cbn [trace]; rewrite responses_app_prompt; reflexivity|].
    split; [reflexivity|]. split; [constructor|].
    cbn [inbox take length]. rewrite str_append_nil_r. reflexivity.
  - destruct fuel as [|fuel]; [cbn in Hf; lia|].
    inversion Hne as [|? ? Hl Hls]; subst.
    set (bytes := match arrivals with b :: _ => b | [] => "" end).
    rewrite interactive_loop_step.
    rewrite (loop_body_next st l bytes); cycle 1.
    { rewrite Hin. reflexivity. }
    { exact Hl. }
    { unfold send_failure. destruct Hs as [|? ? ->]; reflexivity. }
    { unfold recv_arrival. rewrite Hr. destruct arrivals; reflexivity. }
    destruct (IH fuel (after_pass st l bytes) rest (tail arrivals))
      as (st' & chunks & mid & E & I & S0 & T & C & P & R & Rs & Lc & B & K).
    { cbn. rewrite Hin. reflexivity. }
    { exact Hls. }
    { cbn. destruct Hs; [constructor|assumption]. }
    { cbn. rewrite Hr. destruct arrivals; reflexivity. }
    { cbn in Hf. lia. }
    exists st', (str_take 1024 (inbox st +:+ bytes) :: chunks),
      ([ERawInput "> "; ESend (l +:+ newline); ERecv 1024;
        EStdout (str_take 1024 (inbox st +:+ bytes)); EStdout newline] ++ mid).
    split; [exact E|]. split; [exact I|]. split; [exact S0|].
    split; [rewrite T; cbn [after_pass trace]; rewrite <- !app_assoc; reflexivity|].
    split; [cbn; exact C|].
    split; [cbn; rewrite P; reflexivity|].
    split; [cbn; rewrite R; reflexivity|].
    split.
    { rewrite Rs. cbn [after_pass trace].
      rewrite responses_app_prompt, <- app_assoc. reflexivity. }
    split; [cbn [length]; rewrite Lc; reflexivity|].
    split; [constructor; [rewrite str_take_length; lia|exact B]|].
    cbn [str_concat foldr]. fold (str_concat chunks).
    rewrite str_append_assoc, K. cbn [after_pass inbox].
    rewrite <- str_append_assoc, str_take_drop, str_append_assoc.
    f_equal. subst bytes. destruct arrivals as [|b arr]; [|reflexivity].
    cbn [tail]. rewrite !take_nil. reflexivity.
Qed.

(** ** The port is always a port *)

Lemma first_valid_port_range (argv : list string) :
  0 <= first_valid_port argv <= 65535.
Proof.
  induction argv as [|a rest IH]; cbn [first_valid_port]; [lia|].
  destruct (port_of_arg a) as [v|] eqn:Ha; [|exact IH].
  apply port_of_arg_Some in Ha. tauto.
Qed.

(** X1: whatever the arguments and the state, lines 3 to 11 end without
    an exception, print nothing and consume nothing, bind no name other
    than [portNumber] and [arg], and leave in [portNumber] an integer
    between 0 and 65535. *)
Theorem resolved_port_in_range (argv : list string) (st : state) :
  exists g port,
    resolve_port argv st = (Ok tt, with_globals g st)
    /\ g !! "portNumber" = Some (VInt port)
    /\ 0 <= port <= 65535
    /\ forall name, name <> "arg" -> name <> "portNumber" ->
                    g !! name = globals st !! name.
Proof.
  destruct (resolve_port_total argv st) as (g & E & P & F).
  exists g, (first_valid_port argv).
  split; [exact E|]. split; [exact P|].
  split; [apply first_valid_port_range|exact F].
Qed.

(** ** Failures met inside the [try] *)

Lemma round_console_failure (st : state) :
  (forall line, head (stdin_script (env st)) <> Some (Line line)) ->
  exists x,
    round st =
      (Raise x,
       State (globals st) false (inbox st)
             (World (tail (stdin_script (env st))) (connect_result (env st))
                    (send_script (env st)) (recv_script (env st)))
             (trace st ++ [ERawInput "> "])).
Proof.
  intros Hin. unfold round. unfold_io.
  destruct st as [g sp ib [i c sd rv] tr]. cbn in *.
  destruct i as [|[line| |] rest]; cbn.
  - eexists. reflexivity.
  - exfalso. apply (Hin line). reflexivity.
  - eexists. reflexivity.
  - eexists. reflexivity.
Qed.

Lemma round_send_failure (st : state) (line : string) (f : sock_failure) :
  head (stdin_script (env st)) = Some (Line line) ->
  String.length line <> 0%nat ->
  send_failure (env st) = Some f ->
  round st =
    (Raise (socket_error f),
     State (<["msg" := VStr line]> (globals st)) false (inbox st)
           (World (tail (stdin_script (env st))) (connect_result (env st))
                  (tail (send_script (env st))) (recv_script (env st)))
           (trace st ++ [ERawInput "> "; ESend (line +:+ newline)])).
Proof.
  intros Hin Hlen Hsend. unfold round. unfold_io. cbn.
  unfold send_failure in Hsend.
  destruct (stdin_script (env st)) as [|r rest]; [discriminate|].
  injection Hin as ->. cbn.
  apply Nat.eqb_neq in Hlen. rewrite Hlen. cbn.
  destruct (send_script (env st)) as [|[f'|] srest]; try discriminate.
  injection Hsend as ->. cbn. rewrite <- app_assoc. reflexivity.
Qed.

Lemma round_recv_failure (st : state) (line : string) (f : sock_failure) :
  head (stdin_script (env st)) = Some (Line line) ->
  String.length line <> 0%nat ->
  send_failure (env st) = None ->
  recv_arrival (env st) = inr f ->
  round st =
    (Raise (socket_error f),
     State (<["msg" := VStr line]> (globals st)) false (inbox st)
           (World (tail (stdin_script (env st))) (connect_result (env st))
                  (tail (send_script (env st))) (tail (recv_script (env st))))
           (trace st ++ [ERawInput "> "; ESend (line +:+ newline); ERecv 1024])).
Proof.
  intros Hin Hlen Hsend Hrecv. unfold round. unfold_io. cbn.
  unfold send_failure in Hsend. unfold recv_arrival in Hrecv.
  destruct (stdin_script (env st)) as [|r rest]; [discriminate|].
  injection Hin as ->. cbn.
  apply Nat.eqb_neq in Hlen. rewrite Hlen. cbn.
  destruct (send_script (env st)) as [|[f'|] srest]; try discriminate; cbn;
    (destruct (recv_script (env st)) as [|r rrest]; [discriminate|]);
    subst r; cbn; rewrite <- !app_assoc; reflexivity.
Qed.

(** X7: when the console is at end of file, or the prompt is answered by
    an interrupt, nothing is sent; the bare [except:] takes the exception
    and, [e] being unbound, the loop ends on the [NameError] of the
    handler after the first item of its message. *)
Theorem end_of_input_takes_error_path (fuel : nat) (st : state) :
  (forall line, head (stdin_script (env st)) <> Some (Line line)) ->
  globals st !! "e" = None ->
  interactive_loop (S fuel) st =
    (Raise (NameError "e"),
     State (globals st) true (inbox st)
           (World (tail (stdin_script (env st))) (connect_result (env st))
                  (send_script (env st)) (recv_script (env st)))
           (trace st ++ [ERawInput "> "; EStdout "Client experienced error "])).
Proof.
  intros Hin He. rewrite interactive_loop_step.
  destruct (round_console_failure st Hin) as (x & E).
  unfold loop_body, try_except. rewrite E.
  rewrite handler_unbound by exact He. cbn. rewrite <- app_assoc. reflexivity.
Qed.

Lemma end_of_input_takes_error_path_witness :
  let st := State ∅ false "" (World [Interrupted; Line "late"] None [] []) [] in
  (forall line, head (stdin_script (env st)) <> Some (Line line))
  /\ globals st !! "e" = None
  /\ interactive_loop 4 st =
       (Raise (NameError "e"),
        State (globals st) true (inbox st)
              (World (tail (stdin_script (env st))) (connect_result (env st))
                     (send_script (env st)) (recv_script (env st)))
              (trace st ++ [ERawInput "> ";
                            EStdout "Client experienced error "])).
Proof.
  intros st.
  assert (H1 : forall line, head (stdin_script (env st)) <> Some (Line line))
    by (intros line; discriminate).
  assert (H2 : globals st !! "e" = None) by reflexivity.
  split; [exact H1|]. split; [exact H2|].
  exact (end_of_input_takes_error_path 3 st H1 H2).
Defined.

(** X8: when the send of a non-empty line fails, [recv] is not called in
    that pass: the socket's unread bytes and the coming arrivals are
    left as they were, and the pass ends on the [NameError] of the
    handler. *)
Theorem failed_send_skips_recv (st : state) (line : string) (f : sock_failure) :
  head (stdin_script (env st)) = Some (Line line) ->
  String.length line <> 0%nat ->
  send_failure (env st) = Some f ->
  globals st !! "e" = None ->
  loop_body st =
    (Raise (NameError "e"),
     State (<["msg" := VStr line]> (globals st)) true (inbox st)
           (World (tail (stdin_script (env st))) (connect_result (env st))
                  (tail (send_script (env st))) (recv_script (env st)))
           (trace st ++ [ERawInput "> ";
                         ESend (line +:+ newline);
                         EStdout "Client experienced error "])).
Proof.
  intros Hin Hlen Hsend He. unfold loop_body, try_except.
  rewrite (round_send_failure st line f Hin Hlen Hsend).
  rewrite handler_unbound
    by (cbn; rewrite lookup_insert_ne by discriminate; exact He).
  cbn. rewrite <- app_assoc. reflexivity.
Qed.

Lemma failed_send_skips_recv_witness :
  let st := State ∅ false "unread" broken_pipe_world [] in
  head (stdin_script (env st)) = Some (Line "hello")
  /\ String.length "hello" <> 0%nat
  /\ send_failure (env st) = Some (SockFailure 32 "Broken pipe")
  /\ globals st !! "e" = None
  /\ loop_body st =
       (Raise (NameError "e"),
        State (<["msg" := VStr "hello"]> (globals st)) true (inbox st)
              (World (tail (stdin_script (env st))) (connect_result (env st))
                     (tail (send_script (env st))) (recv_script (env st)))
              (trace st ++ [ERawInput "> ";
                            ESend ("hello" +:+ newline);
                            EStdout "Client experienced error "])).
Proof.
  intros st.
  assert (H2 : String.length "hello" <> 0%nat) by discriminate.
  split; [reflexivity|]. split; [exact H2|].
  split; [reflexivity|]. split; [reflexivity|].
  exact (failed_send_skips_recv st "hello" (SockFailure 32 "Broken pipe")
           eq_refl H2 eq_refl eq_refl).
Defined.

(** X9: when the [recv] that follows an accepted send fails, nothing of
    a response is printed: after the [recv] call the only output is the
    first item of the handler's message, the unread bytes stay in the
    socket, and the pass ends on the [NameError] of the handler. *)
Theorem failed_recv_prints_no_response
    (st : state) (line : string) (f : sock_failure) :
  head (stdin_script (env st)) = Some (Line line) ->
  String.length line <> 0%nat ->
  send_failure (env st) = None ->
  recv_arrival (env st) = inr f ->
  globals st !! "e" = None ->
  loop_body st =
    (Raise (NameError "e"),
     State (<["msg" := VStr line]> (globals st)) true (inbox st)
           (World (tail (stdin_script (env st))) (connect_result (env st))
                  (tail (send_script (env st))) (tail (recv_script (env st))))
           (trace st ++ [ERawInput "> ";
                         ESend (line +:+ newline);
                         ERecv 1024;
                         EStdout "Client experienced error "])).
Proof.
  intros Hin Hlen Hsend Hrecv He. unfold loop_body, try_except.
  rewrite (round_recv_failure st line f Hin Hlen Hsend Hrecv).
  rewrite handler_unbound
    by (cbn; rewrite lookup_insert_ne by discriminate; exact He).
  cbn. rewrite <- app_assoc. reflexivity.
Qed.

Lemma failed_recv_prints_no_response_witness :
  let st := State ∅ false "unread" reset_world [] in
  head (stdin_script (env st)) = Some (Line "hello")
  /\ String.length "hello" <> 0%nat
  /\ send_failure (env st) = None
  /\ recv_arrival (env st) = inr (SockFailure 104 "Connection reset by peer")
  /\ globals st !! "e" = None
  /\ loop_body st =
       (Raise (NameError "e"),
        State (<["msg" := VStr "hello"]> (globals st)) true (inbox st)
              (World (tail (stdin_script (env st))) (connect_result (env st))
                     (tail (send_script (env st)))
                     (tail (recv_script (env st))))
              (trace st ++ [ERawInput "> ";
                            ESend ("hello" +:+ newline);
                            ERecv 1024;
                            EStdout "Client experienced error "])).
Proof.
  intros st.
  assert (H2 : String.length "hello" <> 0%nat) by discriminate.
  split; [reflexivity|]. split; [exact H2|].
  split; [reflexivity|]. split; [reflexivity|]. split; [reflexivity|].
  exact (failed_recv_prints_no_response
           st "hello" (SockFailure 104 "Connection reset by peer")
           eq_refl H2 eq_refl eq_refl eq_refl).
Defined.

(** ** The connection *)

Lemma handler_connections (caught : exn) (st : state) :
  connections (trace (snd (handler caught st))) = connections (trace st).
Proof.
  destruct (globals st !! "e") as [v|] eqn:He.
  - unfold handler, print_item. unfold_py. cbn -[softspace_after].
    destruct (softspace st); cbn -[softspace_after]; rewrite He;
      destruct v as [z|s|n| |x]; try destruct x; cbn -[softspace_after];
      split_softspace; cbn -[softspace_after]; rewrite ?He;
      cbn -[softspace_after]; split_softspace; cbn;
      rewrite <- ?app_assoc, connections_app; cbn; apply app_nil_r.
  - rewrite (handler_unbound caught st He). cbn.
    rewrite connections_app. destruct (softspace st); cbn; apply app_nil_r.
Qed.

Lemma round_connections (st : state) :
  connections (trace (snd (round st))) = connections (trace st).
Proof.
  unfold round. unfold_io. cbn -[softspace_after].
  destruct (stdin_script (env st)) as [|[line| |] rest];
    cbn -[softspace_after].
  all: try (rewrite connections_app; cbn; apply app_nil_r).
  destruct (Nat.eqb (String.length line) 0); cbn -[softspace_after].
  { rewrite connections_app; cbn; apply app_nil_r. }
  destruct (send_script (env st)) as [|[f|] srest]; cbn -[softspace_after].
  all: destruct (recv_script (env st)) as [|[bytes|f'] rrest];
    cbn -[softspace_after].
  all: rewrite <- ?app_assoc, connections_app; cbn; apply app_nil_r.
Qed.

Lemma loop_body_connections (st : state) :
  connections (trace (snd (loop_body st))) = connections (trace st).
Proof.
  unfold loop_body, try_except.
  pose proof (round_connections st) as R.
  destruct (round st) as [[c|x|] st1]; cbn in R; try exact R.
  rewrite handler_connections. exact R.
Qed.

Lemma interactive_loop_connections (fuel : nat) (st : state) :
  connections (trace (snd (interactive_loop fuel st))) = connections (trace st).
Proof.
  revert st. induction fuel as [|fuel IH]; intros st; [reflexivity|].
  rewrite interactive_loop_step.
  pose proof (loop_body_connections st) as B.
  destruct (loop_body st) as [[[|]|x|] st1]; cbn in B; try exact B.
  rewrite IH. exact B.
Qed.

Lemma farewell_run (st : state) :
  softspace st = false ->
  farewell st =
    (Ok tt,
     State (globals st) false (inbox st) (env st)
           (trace st ++ [EStdout "Client connection terminated";
                         EStdout newline])).
Proof.
  intros Hs. unfold farewell, print_item, print_newline. unfold_py.
  rewrite Hs. cbn. rewrite <- app_assoc. reflexivity.
Qed.

Lemma farewell_connections (st : state) :
  connections (trace (snd (farewell st))) = connections (trace st).
Proof.
  unfold farewell, print_item, print_newline. unfold_py.
  destruct (softspace st); cbn; rewrite <- ?app_assoc, connections_app; cbn;
    apply app_nil_r.
Qed.

(** X2: a connection refused is fatal: the exception of [connect],
    raised outside any [try], ends the process with a traceback before
    the first prompt; nothing is read, sent or received. *)
Theorem connect_failure_is_fatal
    (fuel : nat) (st : state) (port : pyval) (f : sock_failure) :
  globals st !! "portNumber" = Some port ->
  connect_result (env st) = Some f ->
  session fuel st =
    (Raise (socket_error f),
     State (globals st) (softspace st) (inbox st) (env st)
           (trace st ++ [EConnect "127.0.0.1" port]))
  /\ exit_status (outcome_of (fst (session fuel st))) = Some 1.
Proof.
  intros Hp Hc.
  assert (E : session fuel st =
    (Raise (socket_error f),
     State (globals st) (softspace st) (inbox st) (env st)
           (trace st ++ [EConnect "127.0.0.1" port]))).
  { unfold session, load_name, sock_connect, emit. unfold bind at 1.
    rewrite Hp. unfold bind at 1 2. cbn. rewrite Hc. reflexivity. }
  split; [exact E|]. rewrite E. reflexivity.
Qed.

Lemma connect_failure_is_fatal_witness :
  let st := state_at_exit ["client.py"; "8080"]
              (World [Line "hello"]
                     (Some (SockFailure 111 "Connection refused")) [] []) in
  globals st !! "portNumber" = Some (VInt 8080)
  /\ connect_result (env st) = Some (SockFailure 111 "Connection refused")
  /\ session 5 st =
       (Raise (socket_error (SockFailure 111 "Connection refused")),
        State (globals st) (softspace st) (inbox st) (env st)
              (trace st ++ [EConnect "127.0.0.1" (VInt 8080)]))
  /\ exit_status (outcome_of (fst (session 5 st))) = Some 1.
Proof.
  intros st.
  assert (H1 : globals st !! "portNumber" = Some (VInt 8080))
    by (vm_compute; reflexivity).
  assert (H2 : connect_result (env st)
               = Some (SockFailure 111 "Connection refused"))
    by reflexivity.
  split; [exact H1|]. split; [exact H2|].
  exact (connect_failure_is_fatal 5 st (VInt 8080) _ H1 H2).
Defined.

(** X3: what follows line 14 makes exactly one connection attempt, to
    127.0.0.1 at the port bound to [portNumber], however many passes the
    loop makes and however it ends. *)
Theorem one_connection_per_session (fuel : nat) (st : state) (port : pyval) :
  globals st !! "portNumber" = Some port ->
  connections (trace (snd (session fuel st)))
  = connections (trace st) ++ [("127.0.0.1", port)].
Proof.
  intros Hp. unfold session, load_name, sock_connect, emit. unfold bind at 1.
  rewrite Hp. unfold bind at 1 2. cbn.
  destruct (connect_result (env st)) as [f|]; cbn.
  { rewrite connections_app. reflexivity. }
  unfold bind.
  set (st1 := State (globals st) (softspace st) (inbox st) (env st)
                    (trace st ++ [EConnect "127.0.0.1" port])).
  pose proof (interactive_loop_connections fuel st1) as L.
  destruct (interactive_loop fuel st1) as [[u|x|] st2]; cbn in L.
  - rewrite farewell_connections, L. cbn. rewrite connections_app. reflexivity.
  - cbn. rewrite L. cbn. rewrite connections_app. reflexivity.
  - cbn. rewrite L. cbn. rewrite connections_app. reflexivity.
Qed.

Lemma one_connection_per_session_witness :
  let st := state_at_exit ["client.py"; "8080"]
              (World [Line "a"; Line "b"; Line ""] None [] [inl "x"]) in
  globals st !! "portNumber" = Some (VInt 8080)
  /\ connections (trace (snd (session 9 st)))
     = connections (trace st) ++ [("127.0.0.1", VInt 8080)].
Proof.
  intros st.
  assert (H1 : globals st !! "portNumber" = Some (VInt 8080))
    by (vm_compute; reflexivity).
  split; [exact H1|].
  exact (one_connection_per_session 9 st (VInt 8080) H1).
Defined.

(** ** How the loop ends *)

Lemma round_ok_inv (st st' : state) (c : ctl) :
  round st = (Ok c, st') ->
  exists line,
    head (stdin_script (env st)) = Some (Line line)
    /\ stdin_script (env st') = tail (stdin_script (env st))
    /\ match c with
       | Break => line = "" /\ payloads (trace st') = payloads (trace st)
       | Next => String.length line <> 0%nat
                 /\ payloads (trace st')
                    = payloads (trace st) ++ [line +:+ newline]
       end.
Proof.
  unfold round. unfold_io.
  destruct st as [g sp ib [i cr sd rv] tr]. cbn -[softspace_after].
  destruct i as [|[line| |] rest]; cbn -[softspace_after]; try discriminate.
  destruct (Nat.eqb (String.length line) 0) eqn:Hlen; cbn -[softspace_after].
  { intros [= <- <-]. exists line. cbn. split; [reflexivity|].
    split; [reflexivity|]. split.
    - apply Nat.eqb_eq in Hlen. destruct line; [reflexivity|discriminate].
    - rewrite payloads_app. cbn. apply app_nil_r. }
  apply Nat.eqb_neq in Hlen.
  destruct sd as [|[f|] srest]; cbn -[softspace_after]; try discriminate;
    destruct rv as [|[bytes|f'] rrest]; cbn -[softspace_after];
    try discriminate;
    intros [= <- <-]; exists line; cbn;
    (split; [reflexivity|]); (split; [reflexivity|]);
    (split; [exact Hlen|]);
    rewrite <- ?app_assoc, payloads_app; reflexivity.
Qed.

Lemma loop_body_ok_inv (st st' : state) (c : ctl) :
  loop_body st = (Ok c, st') ->
  exists line,
    head (stdin_script (env st)) = Some (Line line)
    /\ stdin_script (env st') = tail (stdin_script (env st))
    /\ match c with
       | Break => line = "" /\ payloads (trace st') = payloads (trace st)
       | Next => String.length line <> 0%nat
                 /\ payloads (trace st')
                    = payloads (trace st) ++ [line +:+ newline]
       end.
Proof.
  unfold loop_body, try_except.
  destruct (round st) as [[c1|x|] st1] eqn:E.
  - intros [= <- <-]. apply round_ok_inv. exact E.
  - destruct (handler_spec x st1) as (y & st2 & tail & H & _). rewrite H.
    discriminate.
  - discriminate.
Qed.

Lemma interactive_loop_ok_inv (fuel : nat) :
  forall st,
    fst (interactive_loop fuel st) = Ok tt ->
    exists lines rest,
      stdin_script (env st) = (Line <$> lines) ++ Line "" :: rest
      /\ Forall (fun l => String.length l <> 0%nat) lines
      /\ stdin_script (env (snd (interactive_loop fuel st))) = rest
      /\ payloads (trace (snd (interactive_loop fuel st)))
         = payloads (trace st) ++ ((fun l => l +:+ newline) <$> lines).
Proof.
  induction fuel as [|fuel IH]; intros st; [discriminate|].
  rewrite interactive_loop_step.
  destruct (loop_body st) as [[[|]|x|] st1] eqn:E; cbn [fst snd];
    try discriminate.
  - intros H.
    destruct (loop_body_ok_inv st st1 Next E) as (line & Hin & Ht & Hl & Hp).
    destruct (IH st1 H) as (lines & rest & Hin1 & Hne & Hr & Hp1).
    exists (line :: lines), rest.
    split.
    { destruct (stdin_script (env st)) as [|r i]; [discriminate|].
      injection Hin as ->. cbn in Ht. rewrite <- Ht, Hin1. reflexivity. }
    split; [constructor; assumption|].
    split; [exact Hr|].
    rewrite Hp1, Hp, <- app_assoc. reflexivity.
  - intros _.
    destruct (loop_body_ok_inv st st1 Break E) as (line & Hin & Ht & -> & Hp).
    exists [], (tail (stdin_script (env st))).
    split.
    { destruct (stdin_script (env st)) as [|r i]; [discriminate|].
      injection Hin as ->. reflexivity. }
    split; [constructor|]. split; [exact Ht|].
    rewrite Hp. cbn. rewrite app_nil_r. reflexivity.
Qed.

(** X4: the loop ends normally only through an empty line: when it does,
    the console gave some non-empty lines and then an empty one, the
    loop read exactly those, and what was handed to [send] is each of the
    non-empty lines followed by a newline, in order. *)
Theorem normal_exit_means_empty_line (fuel : nat) (st : state) :
  fst (interactive_loop fuel st) = Ok tt ->
  exists lines rest,
    stdin_script (env st) = (Line <$> lines) ++ Line "" :: rest
    /\ Forall (fun l => String.length l <> 0%nat) lines
    /\ stdin_script (env (snd (interactive_loop fuel st))) = rest
    /\ payloads (trace (snd (interactive_loop fuel st)))
       = payloads (trace st) ++ ((fun l => l +:+ newline) <$> lines).
Proof. apply interactive_loop_ok_inv. Qed.

Lemma normal_exit_means_empty_line_witness :
  let st := State ∅ false ""
                  (World [Line "a"; Line "bc"; Line ""; Line "d"] None [] []) [] in
  fst (interactive_loop 7 st) = Ok tt
  /\ exists lines rest,
       stdin_script (env st) = (Line <$> lines) ++ Line "" :: rest
       /\ Forall (fun l => String.length l <> 0%nat) lines
       /\ stdin_script (env (snd (interactive_loop 7 st))) = rest
       /\ payloads (trace (snd (interactive_loop 7 st)))
          = payloads (trace st) ++ ((fun l => l +:+ newline) <$> lines).
Proof.
  intros st.
  assert (H : fst (interactive_loop 7 st) = Ok tt) by (vm_compute; reflexivity).
  split; [exact H|].
  exact (normal_exit_means_empty_line 7 st H).
Defined.



(** ** A session without failures *)

(** X5: when the connection is accepted, the console gives non-empty
    lines and then an empty one, and no send or [recv] fails, what
    follows line 14 runs to its end: it connects, makes one pass per
    line, each with one send of the line and a newline and one [recv] of
    1024 bytes, shows a last prompt, and prints the message of line 30
    last. *)
Theorem session_sends_every_line
    (fuel : nat) (st : state) (port : pyval)
    (lines : list string) (rest : list console_reply) (arrivals : list string) :
  globals st !! "portNumber" = Some port ->
  connect_result (env st) = None ->
  stdin_script (env st) = (Line <$> lines) ++ Line "" :: rest ->
  Forall (fun l => String.length l <> 0%nat) lines ->
  Forall (fun r => r = None) (send_script (env st)) ->
  recv_script (env st) = inl <$> arrivals ->
  (length lines < fuel)%nat ->
  exists st' mid,
    session fuel st = (Ok tt, st')
    /\ stdin_script (env st') = rest
    /\ trace st' = trace st ++ EConnect "127.0.0.1" port :: mid
                            ++ [ERawInput "> ";
                                EStdout "Client connection terminated";
                                EStdout newline]
    /\ connections mid = []
    /\ payloads mid = (fun l => l +:+ newline) <$> lines
    /\ recv_calls mid = replicate (length lines) 1024.
Proof.
  intros Hp Hc Hin Hne Hs Hr Hf.
  unfold session, load_name, sock_connect, emit. unfold bind at 1.
  rewrite Hp. unfold bind at 1 2. cbn. rewrite Hc. unfold bind.
  set (st1 := State (globals st) (softspace st) (inbox st) (env st)
                    (trace st ++ [EConnect "127.0.0.1" port])).
  destruct (loop_transcript lines fuel st1 rest arrivals Hin Hne Hs Hr Hf)
    as (st2 & chunks & mid & E & I & S0 & T & C & P & R & _).
  rewrite E, (farewell_run st2 S0).
  exists (State (globals st2) false (inbox st2) (env st2)
                (trace st2 ++ [EStdout "Client connection terminated";
                               EStdout newline])), mid.
  split; [reflexivity|]. split; [exact I|].
  split; [cbn [trace]; rewrite T; cbn [trace st1];
          rewrite <- !app_assoc; reflexivity|].
  auto.
Qed.

Lemma session_sends_every_line_witness :
  let st := state_at_exit ["client.py"; "7"]
              (World [Line "hello"; Line "again"; Line ""; Line "unread"]
                     None [None] [inl "HELLO"; inl "AGAIN"; inl "more"]) in
  globals st !! "portNumber" = Some (VInt 7)
  /\ connect_result (env st) = None
  /\ stdin_script (env st)
     = (Line <$> ["hello"; "again"]) ++ Line "" :: [Line "unread"]
  /\ Forall (fun l => String.length l <> 0%nat) ["hello"; "again"]
  /\ Forall (fun r => r = None) (send_script (env st))
  /\ recv_script (env st) = inl <$> ["HELLO"; "AGAIN"; "more"]
  /\ (length ["hello"; "again"] < 3)%nat
  /\ exists st' mid,
       session 3 st = (Ok tt, st')
       /\ stdin_script (env st') = [Line "unread"]
       /\ trace st' = trace st ++ EConnect "127.0.0.1" (VInt 7) :: mid
                               ++ [ERawInput "> ";
                                   EStdout "Client connection terminated";
                                   EStdout newline]
       /\ connections mid = []
       /\ payloads mid = (fun l => l +:+ newline) <$> ["hello"; "again"]
       /\ recv_calls mid = replicate (length ["hello"; "again"]) 1024.
Proof.
  intros st.
  assert (H1 : globals st !! "portNumber" = Some (VInt 7))
    by (vm_compute; reflexivity).
  assert (H2 : connect_result (env st) = None) by reflexivity.
  assert (H3 : stdin_script (env st)
               = (Line <$> ["hello"; "again"]) ++ Line "" :: [Line "unread"])
    by reflexivity.
  assert (H4 : Forall (fun l => String.length l <> 0%nat) ["hello"; "again"])
    by (repeat constructor; discriminate).
  assert (H5 : Forall (fun r => r = None) (send_script (env st)))
    by (repeat constructor).
  assert (H6 : recv_script (env st) = inl <$> ["HELLO"; "AGAIN"; "more"])
    by reflexivity.
  assert (H7 : (length ["hello"; "again"] < 3)%nat) by (cbn; lia).
  split; [exact H1|]. split; [exact H2|]. split; [exact H3|].
  split; [exact H4|]. split; [exact H5|]. split; [exact H6|].
  split; [exact H7|].
  exact (session_sends_every_line 3 st (VInt 7) _ _ _ H1 H2 H3 H4 H5 H6 H7).
Defined.

(** X6: over such passes, the texts printed after the [recv] calls are
    pieces of at most 1024 bytes of the stream made of the bytes the
    socket held and the bytes that arrived, in order; together with what
    the socket still holds at the end they make up that stream, no byte
    lost, repeated or moved. *)
Theorem responses_follow_the_stream
    (fuel : nat) (st : state)
    (lines : list string) (rest : list console_reply) (arrivals : list string) :
  stdin_script (env st) = (Line <$> lines) ++ Line "" :: rest ->
  Forall (fun l => String.length l <> 0%nat) lines ->
  Forall (fun r => r = None) (send_script (env st)) ->
  recv_script (env st) = inl <$> arrivals ->
  (length lines < fuel)%nat ->
  exists st' chunks,
    interactive_loop fuel st = (Ok tt, st')
    /\ responses (trace st') = responses (trace st) ++ chunks
    /\ length chunks = length lines
    /\ Forall (fun d => (String.length d <= 1024)%nat) chunks
    /\ str_concat chunks +:+ inbox st'
       = inbox st +:+ str_concat (take (length lines) arrivals).
Proof.
  intros Hin Hne Hs Hr Hf.
  destruct (loop_transcript lines fuel st rest arrivals Hin Hne Hs Hr Hf)
    as (st' & chunks & mid & E & _ & _ & _ & _ & _ & _ & Rs & Lc & B & K).
  exists st', chunks. auto.
Qed.

Lemma responses_follow_the_stream_witness :
  let st := State ∅ false "left over "
                  (World [Line "one"; Line "two"; Line ""] None []
                         [inl "first "; inl "second"; inl "third"]) [] in
  stdin_script (env st) = (Line <$> ["one"; "two"]) ++ Line "" :: []
  /\ Forall (fun l => String.length l <> 0%nat) ["one"; "two"]
  /\ Forall (fun r => r = None) (send_script (env st))
  /\ recv_script (env st) = inl <$> ["first "; "second"; "third"]
  /\ (length ["one"; "two"] < 3)%nat
  /\ exists st' chunks,
       interactive_loop 3 st = (Ok tt, st')
       /\ responses (trace st') = responses (trace st) ++ chunks
       /\ length chunks = length ["one"; "two"]
       /\ Forall (fun d => (String.length d <= 1024)%nat) chunks
       /\ str_concat chunks +:+ inbox st'
          = inbox st
            +:+ str_concat (take (length ["one"; "two"])
                                 ["first "; "second"; "third"]).
Proof.
  intros st.
  assert (H1 : stdin_script (env st)
               = (Line <$> ["one"; "two"]) ++ Line "" :: [])
    by reflexivity.
  assert (H2 : Forall (fun l => String.length l <> 0%nat) ["one"; "two"])
    by (repeat constructor; discriminate).
  assert (H3 : Forall (fun r => r = None) (send_script (env st)))
    by constructor.
  assert (H4 : recv_script (env st) = inl <$> ["first "; "second"; "third"])
    by reflexivity.
  assert (H5 : (length ["one"; "two"] < 3)%nat) by (cbn; lia).
  split; [exact H1|]. split; [exact H2|]. split; [exact H3|].
  split; [exact H4|]. split; [exact H5|].
  exact (responses_follow_the_stream 3 st _ _ _ H1 H2 H3 H4 H5).
Defined.
